(** * Design-pattern demonstration (src/main.py): a shallow embedding

    The program illustrates five patterns around a toy document example:
    a singleton [Configuration] registry, handler factories, an observable
    [Document], a strategy-driven [TextProcessor] and a decorator chain.
    Each pattern gets a module below.  Python objects that are mutated in
    place are modelled by explicit state passing; standard output is the
    list of lines printed so far; a raised exception is a [Raise] outcome
    that leaves the state reached at the point of the raise. *)

From Stdlib Require Import ZArith Ascii String List Lia.
From stdpp Require Import gmap strings list fin_maps.

Open Scope string_scope.
Open Scope list_scope.

(** ** Python runtime: outcomes, values, text *)

Module Py.

(** The exception classes that the modelled code can surface. *)
Inductive exn : Type :=
| ValueError
| AttributeError
| RuntimeError (msg : string).

(** Outcome of a call: a normal return or a propagating exception. *)
Inductive result (A : Type) : Type :=
| Ok (a : A)
| Raise (e : exn).
Arguments Ok {A} a.
Arguments Raise {A} e.

(** Object identity ([id(obj)]): objects are compared by reference,
    which is what [==] does for classes that do not define [__eq__]. *)
Abbreviation ref := nat (only parsing).

(** The values a setting may hold.  [PNone] is Python's [None]. *)
Inductive pyval : Type :=
| PNone
| PStr (s : string)
| PInt (z : Z)
| PBool (b : bool).

(** Computations over a mutable state [S] that may raise.  The state is
    returned in both outcomes: a raise does not roll anything back. *)
Definition M (S A : Type) : Type := S -> result A * S.

Definition ret {S A} (a : A) : M S A := fun s => (Ok a, s).

Definition bind {S A B} (m : M S A) (k : A -> M S B) : M S B :=
  fun s =>
    match m s with
    | (Ok a, s') => k a s'
    | (Raise e, s') => (Raise e, s')
    end.

Definition get {S} : M S S := fun s => (Ok s, s).

Definition modify {S} (f : S -> S) : M S unit := fun s => (Ok tt, f s).

(** [str.lower] / [str.upper].  The model is exact on ASCII text: there
    Python maps A-Z to a-z (respectively a-z to A-Z) and leaves every other
    character alone.  Outside ASCII Python also maps non-ASCII letters, and
    may change the length; the model does not, so every statement below
    about the value of [lower] or [upper] is made for ASCII text
    ([Text.ascii_text]). *)
Definition is_upper (c : ascii) : bool :=
  let n := nat_of_ascii c in Nat.leb 65 n && Nat.leb n 90.

Definition is_lower (c : ascii) : bool :=
  let n := nat_of_ascii c in Nat.leb 97 n && Nat.leb n 122.

Definition lower_char (c : ascii) : ascii :=
  if is_upper c then ascii_of_nat (nat_of_ascii c + 32) else c.

Definition upper_char (c : ascii) : ascii :=
  if is_lower c then ascii_of_nat (nat_of_ascii c - 32) else c.

Fixpoint lower (s : string) : string :=
  match s with
  | EmptyString => EmptyString
  | String c s' => String (lower_char c) (lower s')
  end.

Fixpoint upper (s : string) : string :=
  match s with
  | EmptyString => EmptyString
  | String c s' => String (upper_char c) (upper s')
  end.

(** [print(line)]: one more line on standard output. *)
Definition print (out : list string) (line : string) : list string :=
  out ++ [line].

End Py.

Import Py.

Declare Scope py_scope.
Delimit Scope py_scope with py.
Notation "x <- m ;; k" := (bind m (fun x => k))
  (at level 100, m at next level, right associativity) : py_scope.
Notation "m ;;; k" := (bind m (fun _ => k))
  (at level 100, right associativity) : py_scope.

(** ** Singleton: the [Configuration] registry *)

Module Singleton.

(** The attributes of the class object [Configuration].  [_settings] does
    not exist on the class before the first construction ([None] here);
    instances carry no attribute of their own, so [self._settings] always
    resolves to the class attribute.  [allocated] counts the objects
    created so far and supplies the identity of the next one. *)
Record ClassState : Type := {
  _instance : option ref;
  _settings : option (gmap string pyval);
  allocated : nat
}.

Definition initial : ClassState :=
  {| _instance := None; _settings := None; allocated := 0 |}.

(** [Configuration()]: [__new__] followed by the inherited no-op
    [__init__]. *)
Definition __new__ (σ : ClassState) : ref * ClassState :=
  match _instance σ with
  | None =>
      let r := allocated σ in
      (r, {| _instance := Some r; _settings := Some ∅;
             allocated := S (allocated σ) |})
  | Some r => (r, σ)
  end.

(** A method call needs a receiver: [self] must refer to a live
    [Configuration] object, and the only one there can be is [_instance].
    [self._settings] then resolves to the class attribute. *)
Definition set_setting (self : ref) (key : string) (value : pyval)
  : M ClassState unit :=
  fun σ =>
    if decide (_instance σ = Some self) then
      match _settings σ with
      | None => (Raise AttributeError, σ)
      | Some d =>
          (Ok tt, {| _instance := _instance σ;
                     _settings := Some (<[key := value]> d);
                     allocated := allocated σ |})
      end
    else (Raise AttributeError, σ).

(** [dict.get(key)]: the stored value, or [None] when absent. *)
Definition get_setting (self : ref) (key : string) : M ClassState pyval :=
  fun σ =>
    if decide (_instance σ = Some self) then
      match _settings σ with
      | None => (Raise AttributeError, σ)
      | Some d => (Ok (default PNone (d !! key)), σ)
      end
    else (Raise AttributeError, σ).

(** What client code can do with the registry, and what it gets back. *)
Inductive call : Type :=
| Construct
| SetSetting (self : ref) (key : string) (value : pyval)
| GetSetting (self : ref) (key : string).

Inductive answer : Type :=
| Instance (r : ref)
| Done (o : result unit)
| Value (o : result pyval).

Definition step (c : call) (σ : ClassState) : answer * ClassState :=
  match c with
  | Construct => let '(r, σ') := __new__ σ in (Instance r, σ')
  | SetSetting self k v => let '(o, σ') := set_setting self k v σ in (Done o, σ')
  | GetSetting self k => let '(o, σ') := get_setting self k σ in (Value o, σ')
  end.

Fixpoint run (cs : list call) (σ : ClassState) : list answer * ClassState :=
  match cs with
  | [] => ([], σ)
  | c :: cs' =>
      let '(a, σ1) := step c σ in
      let '(as_, σ2) := run cs' σ1 in
      (a :: as_, σ2)
  end.

(** [stores k c]: the call writes under key [k]. *)
Definition stores (k : string) (c : call) : bool :=
  match c with
  | SetSetting _ k' _ => bool_decide (k' = k)
  | _ => false
  end.

Definition never_stores (k : string) (cs : list call) : Prop :=
  Forall (fun c => stores k c = false) cs.

(** The references handed out by the [Configuration()] calls of a run. *)
Fixpoint constructed (answers : list answer) : list ref :=
  match answers with
  | [] => []
  | Instance r :: rest => r :: constructed rest
  | _ :: rest => constructed rest
  end.

(** A process starts with the class untouched. *)
Definition answers (cs : list call) : list answer := fst (run cs initial).
Definition after (cs : list call) : ClassState := snd (run cs initial).

(** Reachable class states: the mapping exists exactly when the instance
    does, and the instance is an object that was allocated. *)
Definition consistent (σ : ClassState) : Prop :=
  match _instance σ with
  | None => _settings σ = None
  | Some r => is_Some (_settings σ) /\ r < allocated σ
  end.

End Singleton.

(** ** Factory method: document handlers *)

Module Factory.

Inductive DocumentHandler : Type :=
| TextHandler
| PDFHandler.

Definition process (h : DocumentHandler) (content : string) : string :=
  match h with
  | TextHandler => lower content
  | PDFHandler => "PDF Content: " +:+ content
  end.

Inductive HandlerFactory : Type :=
| TextHandlerFactory
| PDFHandlerFactory.

(** The part of the process a factory call could touch: the handler
    objects alive so far (an object's identity is its position) and
    standard output. *)
Record World : Type := {
  handlers : list DocumentHandler;
  stdout : list string
}.

(** Object construction: a new identity, never handed out before. *)
Definition construct (h : DocumentHandler) : M World ref :=
  fun w =>
    (Ok (length (handlers w)),
     {| handlers := handlers w ++ [h]; stdout := stdout w |}).

Definition create_handler (f : HandlerFactory) : M World ref :=
  match f with
  | TextHandlerFactory => construct TextHandler
  | PDFHandlerFactory => construct PDFHandler
  end.

(** [handler.process(content)] on a handler reference: dispatch on the
    class of the object behind it. *)
Definition call_process (handler : ref) (content : string) : M World string :=
  fun w =>
    match handlers w !! handler with
    | Some h => (Ok (process h content), w)
    | None => (Raise AttributeError, w)
    end.

End Factory.

(** ** Observer: the observable [Document] *)

Module Observer.

(** Concrete observer classes.  [Logger] is the one the program defines;
    [Subclass body] stands for any other subclass of [Observer] whose
    [update] reads the subject through [get_content], prints the lines
    [fst (body content)] and then returns or raises as [snd (body content)]
    says.  Observers read the subject; an [update] that itself calls
    [attach], [detach] or [set_content] on the subject it is handed is
    outside this model. *)
Inductive ObserverClass : Type :=
| Logger
| Subclass (body : string -> list string * result unit).

(** What one [update(subject)] call does, given what [get_content]
    returns: the printed lines and the outcome. *)
Definition behaviour (cls : ObserverClass) (content : string)
  : list string * result unit :=
  match cls with
  | Logger => (["Logger: Document content updated to: " +:+ content], Ok tt)
  | Subclass body => body content
  end.

Record Document : Type := {
  _content : string;
  _observers : list ref
}.

(** [Document()]: [Subject.__init__] gives an empty observer list and the
    class attribute supplies the empty content. *)
Definition __init__ : Document := {| _content := ""; _observers := [] |}.

(** A document in its environment: the observer objects that exist,
    standard output, and the record of the [update] calls made so far
    (which observer was called, and the content it could read). *)
Record World : Type := {
  objects : gmap ref ObserverClass;
  doc : Document;
  stdout : list string;
  updates : list (ref * string)
}.

Definition with_doc (d : Document) (w : World) : World :=
  {| objects := objects w; doc := d; stdout := stdout w; updates := updates w |}.

(** [list.remove(x)]: drop the first item equal to [x]; [None] when there
    is none (Python raises [ValueError]). *)
Fixpoint remove (x : ref) (l : list ref) : option (list ref) :=
  match l with
  | [] => None
  | y :: l' =>
      if decide (y = x) then Some l'
      else match remove x l' with
           | Some r => Some (y :: r)
           | None => None
           end
  end.

Definition attach (observer : ref) : M World unit :=
  modify (fun w =>
    with_doc {| _content := _content (doc w);
                _observers := _observers (doc w) ++ [observer] |} w).

Definition detach (observer : ref) : M World unit :=
  fun w =>
    match remove observer (_observers (doc w)) with
    | Some l =>
        (Ok tt, with_doc {| _content := _content (doc w); _observers := l |} w)
    | None => (Raise ValueError, w)
    end.

Definition get_content : M World string :=
  fun w => (Ok (_content (doc w)), w).

(** [observer.update(self)]. An attached object without an [update]
    method makes the call fail with [AttributeError]. *)
Definition update (observer : ref) : M World unit :=
  fun w =>
    match objects w !! observer with
    | None => (Raise AttributeError, w)
    | Some cls =>
        let content := _content (doc w) in
        let '(lines, o) := behaviour cls content in
        (o, {| objects := objects w; doc := doc w;
               stdout := stdout w ++ lines;
               updates := updates w ++ [(observer, content)] |})
    end.

(** The [for] loop of [notify] over the observer list. *)
Fixpoint notify_loop (observers : list ref) : M World unit :=
  match observers with
  | [] => ret tt
  | observer :: rest => (update observer ;;; notify_loop rest)%py
  end.

Definition notify : M World unit :=
  fun w => notify_loop (_observers (doc w)) w.

Definition set_content (content : string) : M World unit :=
  (modify (fun w =>
     with_doc {| _content := content; _observers := _observers (doc w) |} w) ;;;
   notify)%py.

(** The notifications of one complete round: every entry of the observer
    list in order, each seeing [content]. *)
Definition round (observers : list ref) (content : string)
  : list (ref * string) :=
  map (fun o => (o, content)) observers.

(** [returns objs content o]: [o] is an observer object whose [update]
    returns normally when the subject holds [content]. *)
Definition returns (objs : gmap ref ObserverClass) (content : string)
    (o : ref) : Prop :=
  exists cls, objs !! o = Some cls /\ snd (behaviour cls content) = Ok tt.

(** [raises objs content o e]: [o] is an observer object whose [update]
    ends in exception [e] when the subject holds [content]. *)
Definition raises (objs : gmap ref ObserverClass) (content : string)
    (o : ref) (e : exn) : Prop :=
  exists cls, objs !! o = Some cls /\ snd (behaviour cls content) = Raise e.

(** The lines the listed observers print when each is updated once, in
    order, on a subject holding [content]. *)
Definition printed (objs : gmap ref ObserverClass) (content : string)
    (observers : list ref) : list string :=
  concat (map (fun o => match objs !! o with
                        | Some cls => fst (behaviour cls content)
                        | None => []
                        end) observers).

(** Observer objects to run the program on: a [Logger] at address 0, a
    second [Logger] at address 1, and at address 2 an observer whose
    [update] prints one line and then raises. *)
Definition failing : ObserverClass :=
  Subclass (fun content =>
    (["about to fail on: " +:+ content], Raise (RuntimeError "update failed"))).

Definition sample_objects : gmap ref ObserverClass :=
  <[0 := Logger]> (<[1 := Logger]> (<[2 := failing]> ∅)).

(** A fresh document in a world with the given observer objects. *)
Definition fresh (objs : gmap ref ObserverClass) : World :=
  {| objects := objs; doc := __init__; stdout := []; updates := [] |}.

End Observer.

(** ** Strategy: the [TextProcessor] *)

Module Strategy.

Inductive ProcessingStrategy : Type :=
| LowerCaseStrategy
| UpperCaseStrategy.

Definition process (s : ProcessingStrategy) (content : string) : string :=
  match s with
  | LowerCaseStrategy => lower content
  | UpperCaseStrategy => upper content
  end.

Record TextProcessor : Type := { _strategy : ProcessingStrategy }.

Definition __init__ (strategy : ProcessingStrategy) : TextProcessor :=
  {| _strategy := strategy |}.

Definition set_strategy (strategy : ProcessingStrategy) : M TextProcessor unit :=
  modify (fun _ => {| _strategy := strategy |}).

Definition execute (content : string) : M TextProcessor string :=
  fun p => (Ok (process (_strategy p) content), p).

(** Client calls on one processor; [results] collects, in call order, what
    the [execute] calls returned. *)
Inductive call : Type :=
| SetStrategy (strategy : ProcessingStrategy)
| Execute (content : string).

Fixpoint results (cs : list call) (p : TextProcessor) : list (result string) :=
  match cs with
  | [] => []
  | SetStrategy s :: cs' => results cs' (snd (set_strategy s p))
  | Execute c :: cs' =>
      let '(r, p') := execute c p in r :: results cs' p'
  end.

Fixpoint final (cs : list call) (p : TextProcessor) : TextProcessor :=
  match cs with
  | [] => p
  | SetStrategy s :: cs' => final cs' (snd (set_strategy s p))
  | Execute c :: cs' => final cs' (snd (execute c p))
  end.

End Strategy.

(** ** Decorator: the component chain *)

Module Decorator.

(** A chain is built bottom-up by the constructors, so it is a finite
    tree with a [ConcreteComponent] at the bottom. *)
Inductive Component : Type :=
| ConcreteComponent (content : string)
| Decorator (component : Component)
| SpellCheckDecorator (component : Component)
| LoggingDecorator (component : Component).

(** [operation()], over standard output as the state. *)
Fixpoint operation (c : Component) : M (list string) string :=
  match c with
  | ConcreteComponent content => ret content
  | Decorator component => operation component
  | SpellCheckDecorator component =>
      (r <- operation component ;;
       ret ("SpellChecked(" +:+ r +:+ ")"))%py
  | LoggingDecorator component =>
      (result <- operation component ;;
       modify (fun out => print out ("Logging: " +:+ result)) ;;;
       ret result)%py
  end.

End Decorator.

(** ** Vocabulary for statements about longer runs

    Nothing below adds behaviour: these are the measures, filters and call
    sequences that the properties of the five units are stated with. *)

Module Text.

(** Text in the ASCII range, the text on which [lower] and [upper] are
    exactly [str.lower] and [str.upper]. *)
Definition is_ascii (c : ascii) : bool := Nat.ltb (nat_of_ascii c) 128.

Fixpoint ascii_text (s : string) : bool :=
  match s with
  | EmptyString => true
  | String c s' => is_ascii c && ascii_text s'
  end.

Fixpoint has_upper (s : string) : bool :=
  match s with
  | EmptyString => false
  | String c s' => is_upper c || has_upper s'
  end.

Fixpoint has_lower (s : string) : bool :=
  match s with
  | EmptyString => false
  | String c s' => is_lower c || has_lower s'
  end.

End Text.

Module SingletonRuns.
Import Singleton.

Definition is_construct (c : call) : bool :=
  match c with
  | Construct => true
  | _ => false
  end.

Definition is_get (c : call) : bool :=
  match c with
  | GetSetting _ _ => true
  | _ => false
  end.

(** A history with its [get_setting] calls taken out. *)
Definition without_gets (cs : list call) : list call :=
  List.filter (fun c => negb (is_get c)) cs.

(** The answers of a history other than those of [get_setting] calls. *)
Definition is_value (a : answer) : bool :=
  match a with
  | Value _ => true
  | _ => false
  end.

Definition without_values (answers : list answer) : list answer :=
  List.filter (fun a => negb (is_value a)) answers.

End SingletonRuns.

Module FactoryRuns.
Import Factory.

(** The handler class a factory class stands for. *)
Definition product (f : HandlerFactory) : DocumentHandler :=
  match f with
  | TextHandlerFactory => TextHandler
  | PDFHandlerFactory => PDFHandler
  end.

(** One [create_handler()] call per listed factory, in order. *)
Fixpoint create_all (fs : list HandlerFactory) : M World (list ref) :=
  match fs with
  | [] => ret []
  | f :: fs' =>
      (r <- create_handler f ;;
       rs <- create_all fs' ;;
       ret (r :: rs))%py
  end.

End FactoryRuns.

Module StrategyRuns.
Import Strategy.

Fixpoint executes (cs : list call) : nat :=
  match cs with
  | [] => 0
  | Execute _ :: cs' => S (executes cs')
  | SetStrategy _ :: cs' => executes cs'
  end.

(** The strategy of the last [set_strategy] call, [s0] when there is none. *)
Fixpoint last_set (cs : list call) (s0 : ProcessingStrategy) : ProcessingStrategy :=
  match cs with
  | [] => s0
  | SetStrategy s :: cs' => last_set cs' s
  | Execute _ :: cs' => last_set cs' s0
  end.

End StrategyRuns.

Module DecoratorShape.
Import Decorator.

(** The content of the [ConcreteComponent] at the bottom of a chain. *)
Fixpoint payload (c : Component) : string :=
  match c with
  | ConcreteComponent content => content
  | Decorator c' | SpellCheckDecorator c' | LoggingDecorator c' => payload c'
  end.

Fixpoint spellchecks (c : Component) : nat :=
  match c with
  | ConcreteComponent _ => 0
  | SpellCheckDecorator c' => S (spellchecks c')
  | Decorator c' | LoggingDecorator c' => spellchecks c'
  end.

Fixpoint loggers (c : Component) : nat :=
  match c with
  | ConcreteComponent _ => 0
  | LoggingDecorator c' => S (loggers c')
  | Decorator c' | SpellCheckDecorator c' => loggers c'
  end.

(** [n] layers of "SpellChecked(" ... ")" around [s]. *)
Fixpoint nest (n : nat) (s : string) : string :=
  match n with
  | 0 => s
  | S n' => "SpellChecked(" +:+ nest n' s +:+ ")"
  end.

End DecoratorShape.

(** * Properties *)

(** ** The monad *)

Section MonadFacts.
Context {S A B : Type}.

Lemma bind_ok (m : M S A) (k : A -> M S B) s a s' :
  m s = (Ok a, s') -> bind m k s = k a s'.
Proof. unfold bind. by intros ->. Qed.

Lemma bind_raise (m : M S A) (k : A -> M S B) s e s' :
  m s = (Raise e, s') -> bind m k s = (Raise e, s').
Proof. unfold bind. by intros ->. Qed.

End MonadFacts.

(** ** Singleton *)

Section SingletonFacts.
Import Singleton.

Lemma consistent_initial : consistent initial.
Proof. reflexivity. Qed.

(** [set_setting] either fails and changes nothing, or succeeds on the
    instance and writes one entry of the existing mapping. *)
Lemma set_setting_cases self k v σ :
  (exists e, set_setting self k v σ = (Raise e, σ)) \/
  (exists d, _instance σ = Some self /\ _settings σ = Some d /\
             set_setting self k v σ =
               (Ok tt, {| _instance := Some self;
                          _settings := Some (<[k := v]> d);
                          allocated := allocated σ |})).
Proof.
  unfold set_setting. destruct (decide (_instance σ = Some self)) as [E|E].
  - destruct (_settings σ) as [d|] eqn:Ed.
    + right. exists d. by rewrite E.
    + left. by eexists.
  - left. by eexists.
Qed.

Lemma get_setting_state self k σ : (get_setting self k σ).2 = σ.
Proof.
  unfold get_setting. destruct (decide (_instance σ = Some self)); [|done].
  by destruct (_settings σ).
Qed.

Lemma step_consistent c σ : consistent σ -> consistent (step c σ).2.
Proof.
  intros H. destruct c as [|self k v|self k]; cbn [step].
  - unfold __new__. unfold consistent in *.
    destruct (_instance σ) eqn:E; cbn [snd].
    + by rewrite E.
    + cbn. split; [by eexists | lia].
  - destruct (set_setting_cases self k v σ) as [[e ->]|(d & Ei & Ed & ->)];
      cbn [snd]; [done|].
    unfold consistent in *. rewrite Ei in H. cbn. split; [by eexists|apply H].
  - pose proof (get_setting_state self k σ) as Hs.
    destruct (get_setting self k σ) as [o σ']. cbn [snd] in *. by subst.
Qed.

Lemma step_keeps_instance c σ r :
  _instance σ = Some r -> _instance (step c σ).2 = Some r.
Proof.
  intros E. destruct c as [|self k v|self k]; cbn [step].
  - unfold __new__. by rewrite E.
  - destruct (set_setting_cases self k v σ) as [[e ->]|(d & Ei & Ed & ->)];
      cbn [snd]; [done|]. cbn. congruence.
  - pose proof (get_setting_state self k σ) as Hs.
    destruct (get_setting self k σ) as [o σ']. cbn [snd] in *. by subst.
Qed.

Lemma run_cons c cs σ :
  run (c :: cs) σ =
  ((step c σ).1 :: (run cs (step c σ).2).1, (run cs (step c σ).2).2).
Proof.
  simpl. destruct (step c σ) as [a σ1]. simpl.
  by destruct (run cs σ1).
Qed.

Lemma run_app cs1 cs2 σ :
  run (cs1 ++ cs2) σ =
  ((run cs1 σ).1 ++ (run cs2 (run cs1 σ).2).1, (run cs2 (run cs1 σ).2).2).
Proof.
  revert σ. induction cs1 as [|c cs1 IH]; intros σ.
  - simpl. by destruct (run cs2 σ).
  - rewrite <- app_comm_cons, !run_cons, IH. reflexivity.
Qed.

Lemma run_consistent cs σ : consistent σ -> consistent (run cs σ).2.
Proof.
  revert σ. induction cs as [|c cs IH]; intros σ H; [done|].
  rewrite run_cons. simpl. by apply IH, step_consistent.
Qed.

Lemma run_keeps_instance cs σ r :
  _instance σ = Some r -> _instance (run cs σ).2 = Some r.
Proof.
  revert σ. induction cs as [|c cs IH]; intros σ H; [done|].
  rewrite run_cons. simpl. by apply IH, step_keeps_instance.
Qed.

(** A reference returned by a construction is the class's instance from
    then on, and it is the instance that was already there, if any. *)
Lemma constructed_is_instance cs σ r :
  r ∈ constructed (run cs σ).1 ->
  _instance (run cs σ).2 = Some r /\
  (forall r0, _instance σ = Some r0 -> r0 = r).
Proof.
  revert σ. induction cs as [|c cs IH]; intros σ; [by intros ?%elem_of_nil|].
  rewrite run_cons. cbn [fst snd].
  destruct c as [|self k v|self k].
  - cbn [step]. unfold __new__.
    destruct (_instance σ) as [r0|] eqn:E; cbn [fst snd constructed].
    + intros [->|Hin]%elem_of_cons.
      * split; [by apply run_keeps_instance|]. by intros ? [= ->].
      * destruct (IH _ Hin) as [H1 H2]. split; [done|].
        intros r1 [= <-]. by apply H2.
    + intros [->|Hin]%elem_of_cons.
      * split; [by apply run_keeps_instance|done].
      * destruct (IH _ Hin) as [H1 H2]. by split.
  - assert (constructed ((step (SetSetting self k v) σ).1
              :: (run cs (step (SetSetting self k v) σ).2).1)
            = constructed (run cs (step (SetSetting self k v) σ).2).1) as ->.
    { simpl. by destruct (set_setting self k v σ). }
    intros Hin. destruct (IH _ Hin) as [H1 H2]. split; [done|].
    intros r0 E. apply H2. by apply step_keeps_instance.
  - assert (constructed ((step (GetSetting self k) σ).1
              :: (run cs (step (GetSetting self k) σ).2).1)
            = constructed (run cs (step (GetSetting self k) σ).2).1) as ->.
    { simpl. by destruct (get_setting self k σ). }
    intros Hin. destruct (IH _ Hin) as [H1 H2]. split; [done|].
    intros r0 E. apply H2. by apply step_keeps_instance.
Qed.

Lemma constructed_app a1 a2 :
  constructed (a1 ++ a2) = constructed a1 ++ constructed a2.
Proof.
  induction a1 as [|[r|o|o] a1 IH]; simpl; by rewrite ?IH.
Qed.

(** Calls that do not write under [k] leave the entry for [k] alone. *)
Lemma never_stores_lookup k cs σ d :
  consistent σ -> never_stores k cs -> _settings σ = Some d ->
  exists d', _settings (run cs σ).2 = Some d' /\ d' !! k = d !! k.
Proof.
  revert σ d. induction cs as [|c cs IH]; intros σ d Hc Hn E.
  - exists d. by split.
  - apply Forall_cons in Hn as [Hk Hn]. rewrite run_cons. cbn [snd].
    pose proof (step_consistent c σ Hc) as Hc'.
    destruct c as [|self k' v|self k']; cbn [step] in *.
    + unfold __new__ in *. destruct (_instance σ) eqn:Ei; cbn [snd] in *.
      * by apply IH.
      * unfold consistent in Hc. rewrite Ei in Hc. congruence.
    + destruct (set_setting_cases self k' v σ) as [[e Hs]|(d0 & Ei & Ed & Hs)];
        rewrite Hs in *; cbn [snd] in *; [by apply IH|].
      destruct (IH _ _ Hc' Hn eq_refl) as (d' & Hd' & Hl).
      exists d'. split; [done|]. rewrite Hl.
      assert (d0 = d) as -> by congruence.
      apply lookup_insert_ne. simpl in Hk.
      by apply bool_decide_eq_false in Hk.
    + pose proof (get_setting_state self k' σ) as Hs.
      destruct (get_setting self k' σ) as [o σ']. cbn [snd] in *. subst σ'.
      by apply IH.
Qed.

(** C1. Every [Configuration()] call of a process returns the same
    instance, and all references share one mapping: for any history [cs]
    and any two references [r1], [r2] that constructions of that history
    returned, [r1] and [r2] are the same object, and a value stored through
    [r1] is what [get_setting] through [r2] returns later, whatever calls
    happen in between as long as none of them stores under the same key
    again. *)
Theorem configuration_single_shared_instance
    (cs : list call) (r1 r2 : ref) :
  r1 ∈ constructed (answers cs) ->
  r2 ∈ constructed (answers cs) ->
  r1 = r2 /\
  forall (k : string) (v : pyval) (cs' : list call),
    never_stores k cs' ->
    let σ := (run (SetSetting r1 k v :: cs') (after cs)).2 in
    get_setting r2 k σ = (Ok v, σ) /\
    forall r, r ∈ constructed (run (SetSetting r1 k v :: cs') (after cs)).1 ->
              r = r1.
Proof.
  unfold answers, after. intros H1 H2.
  destruct (constructed_is_instance _ _ _ H1) as [I1 _].
  destruct (constructed_is_instance _ _ _ H2) as [I2 _].
  split; [congruence|].
  intros k v cs' Hn.
  pose proof (run_consistent cs initial consistent_initial) as Hc.
  assert (exists d, _settings (run cs initial).2 = Some d) as [d Hd].
  { unfold consistent in Hc. rewrite I1 in Hc. by destruct Hc as [[d ->] _]; eexists. }
  pose proof (step_consistent (SetSetting r1 k v) _ Hc) as Hc1.
  rewrite run_cons. cbn [fst snd].
  assert ((step (SetSetting r1 k v) (run cs initial).2).1 = Done (Ok tt)) as Ha.
  { cbn [step]. unfold set_setting. by rewrite decide_True, Hd. }
  assert (_settings (step (SetSetting r1 k v) (run cs initial).2).2
          = Some (<[k := v]> d)) as Hs.
  { cbn [step]. unfold set_setting. by rewrite decide_True, Hd. }
  destruct (never_stores_lookup k cs' _ _ Hc1 Hn Hs) as (d' & Hd' & Hl).
  split.
  - unfold get_setting. rewrite decide_True.
    + rewrite Hd', Hl, lookup_insert_eq. reflexivity.
    + by apply run_keeps_instance, step_keeps_instance.
  - rewrite Ha. cbn [constructed]. intros r Hr.
    destruct (constructed_is_instance _ _ _ Hr) as [_ Hr'].
    symmetry. apply Hr'. by apply step_keeps_instance.
Qed.

Lemma configuration_single_shared_instance_witness :
  let cs := [Construct; SetSetting 0 "theme" (PStr "dark"); Construct] in
  let cs' := [Construct; SetSetting 0 "theme" (PStr "light")] in
  let σ := (run (SetSetting 0 "language" (PStr "EN") :: cs') (after cs)).2 in
  get_setting 0 "language" σ = (Ok (PStr "EN"), σ).
Proof.
  intros cs cs' σ.
  assert (0 ∈ constructed (answers cs)) as H by (vm_compute; constructor).
  assert (never_stores "language" cs') as Hn by (repeat constructor).
  exact (proj1 (proj2 (configuration_single_shared_instance cs 0 0 H H)
                  "language" (PStr "EN") cs' Hn)).
Defined.

(** A key with no entry in the class mapping gets none from a call that
    does not store under it. *)
Lemma step_absent k c σ :
  stores k c = false ->
  (forall d, _settings σ = Some d -> d !! k = None) ->
  forall d, _settings (step c σ).2 = Some d -> d !! k = None.
Proof.
  intros Hk Ha d. destruct c as [|self k' v|self k']; cbn [step].
  - unfold __new__. destruct (_instance σ); cbn [snd]; [by apply Ha|].
    cbn [_settings]. by intros [= <-].
  - destruct (set_setting_cases self k' v σ) as [[e ->]|(d0 & Ei & Ed & ->)];
      cbn [snd]; [by apply Ha|].
    cbn [_settings]. intros [= <-].
    simpl in Hk. apply bool_decide_eq_false in Hk.
    rewrite lookup_insert_ne by done. by apply Ha.
  - pose proof (get_setting_state self k' σ) as Hs.
    destruct (get_setting self k' σ) as [o σ']. cbn [snd] in *. subst σ'.
    by apply Ha.
Qed.

Lemma run_absent k cs σ :
  never_stores k cs ->
  (forall d, _settings σ = Some d -> d !! k = None) ->
  forall d, _settings (run cs σ).2 = Some d -> d !! k = None.
Proof.
  revert σ. induction cs as [|c cs IH]; intros σ Hn Ha; [done|].
  apply Forall_cons in Hn as [Hk Hn]. rewrite run_cons. cbn [snd].
  apply IH; [done|]. by apply step_absent.
Qed.

(** C2. With the registry obtained by a construction of any history
    [cs]: [set_setting(key, value)] returns normally and a following
    [get_setting(key)] returns exactly [value], whatever was stored under
    [key] before; and when no call of the history stored under [key],
    [get_setting(key)] returns [None] and does not raise. *)
Theorem set_setting_then_get_setting
    (cs : list call) (r : ref) (key : string) (value : pyval) :
  r ∈ constructed (answers cs) ->
  (exists σ', set_setting r key value (after cs) = (Ok tt, σ') /\
              get_setting r key σ' = (Ok value, σ')) /\
  (never_stores key cs ->
   get_setting r key (after cs) = (Ok PNone, after cs)).
Proof.
  unfold answers, after. intros Hr.
  destruct (constructed_is_instance _ _ _ Hr) as [Hi _].
  pose proof (run_consistent cs initial consistent_initial) as Hc.
  unfold consistent in Hc. rewrite Hi in Hc. destruct Hc as [[d Hd] _].
  split.
  - unfold set_setting, get_setting. rewrite decide_True, Hd by done.
    eexists. split; [reflexivity|].
    cbn [_instance _settings]. by rewrite decide_True, lookup_insert_eq.
  - intros Hn. unfold get_setting. rewrite decide_True, Hd by done.
    rewrite (run_absent key cs initial Hn (fun d0 (H : None = Some d0) =>
               ltac:(discriminate)) d Hd).
    reflexivity.
Qed.

Lemma set_setting_then_get_setting_witness :
  let cs := [Construct; SetSetting 0 "language" (PStr "EN")] in
  (exists σ', set_setting 0 "language" (PStr "UA") (after cs) = (Ok tt, σ') /\
              get_setting 0 "language" σ' = (Ok (PStr "UA"), σ')) /\
  get_setting 0 "missing_key" (after cs) = (Ok PNone, after cs).
Proof.
  intros cs.
  assert (0 ∈ constructed (answers cs)) as H by (vm_compute; constructor).
  assert (never_stores "missing_key" cs) as Hn by (repeat constructor).
  split.
  - exact (proj1 (set_setting_then_get_setting cs 0 "language" (PStr "UA") H)).
  - exact (proj2 (set_setting_then_get_setting cs 0 "missing_key" PNone H) Hn).
Defined.

End SingletonFacts.

(** ** Text *)

Section TextFacts.

Lemma lower_length s : String.length (lower s) = String.length s.
Proof. induction s as [|c s IH]; simpl; [done | by rewrite IH]. Qed.


Lemma lower_app s t : lower (s +:+ t) = lower s +:+ lower t.
Proof. induction s as [|c s IH]; simpl; [done | by rewrite IH]. Qed.

Lemma lower_char_idem c : lower_char (lower_char c) = lower_char c.
Proof.
  destruct c as [[] [] [] [] [] [] [] []]; reflexivity.
Qed.

Lemma lower_idem s : lower (lower s) = lower s.
Proof.
  induction s as [|c s IH]; simpl; [done|]. by rewrite lower_char_idem, IH.
Qed.

Example lower_hello : lower "Hello World!" = "hello world!".
Proof. reflexivity. Qed.

Example upper_hello : upper "Hello World!" = "HELLO WORLD!".
Proof. reflexivity. Qed.

End TextFacts.

(** ** Text in the ASCII range *)

Section AsciiFacts.
Import Text.

Lemma string_length_app (a b : string) :
  String.length (a +:+ b) = String.length a + String.length b.
Proof. induction a as [|c a IH]; simpl; [done | by rewrite IH]. Qed.

Lemma substring_all (s : string) : substring 0 (String.length s) s = s.
Proof. induction s as [|c s IH]; simpl; [done | by rewrite IH]. Qed.

Lemma lower_char_not_upper c : is_upper (lower_char c) = false.
Proof. destruct c as [[] [] [] [] [] [] [] []]; reflexivity. Qed.


Lemma lower_char_ascii c : is_ascii (lower_char c) = is_ascii c.
Proof. destruct c as [[] [] [] [] [] [] [] []]; reflexivity. Qed.

Lemma upper_char_ascii c : is_ascii (upper_char c) = is_ascii c.
Proof. destruct c as [[] [] [] [] [] [] [] []]; reflexivity. Qed.

Lemma lower_upper_char c : lower_char (upper_char c) = lower_char c.
Proof. destruct c as [[] [] [] [] [] [] [] []]; reflexivity. Qed.

Lemma upper_lower_char c : upper_char (lower_char c) = upper_char c.
Proof. destruct c as [[] [] [] [] [] [] [] []]; reflexivity. Qed.

Lemma lower_char_fixed c : lower_char c = c <-> is_upper c = false.
Proof.
  destruct c as [[] [] [] [] [] [] [] []]; vm_compute; split; congruence.
Qed.

Lemma upper_char_fixed c : upper_char c = c <-> is_lower c = false.
Proof.
  destruct c as [[] [] [] [] [] [] [] []]; vm_compute; split; congruence.
Qed.

Lemma lower_no_upper s : has_upper (lower s) = false.
Proof.
  induction s as [|c s IH]; simpl; [done|]. by rewrite lower_char_not_upper, IH.
Qed.


Lemma lower_ascii s : ascii_text (lower s) = ascii_text s.
Proof.
  induction s as [|c s IH]; simpl; [done|]. by rewrite lower_char_ascii, IH.
Qed.

Lemma lower_upper s : lower (upper s) = lower s.
Proof.
  induction s as [|c s IH]; simpl; [done|]. by rewrite lower_upper_char, IH.
Qed.

Lemma upper_lower s : upper (lower s) = upper s.
Proof.
  induction s as [|c s IH]; simpl; [done|]. by rewrite upper_lower_char, IH.
Qed.

Lemma lower_fixed s : lower s = s <-> has_upper s = false.
Proof.
  induction s as [|c s IH]; simpl; [done|]. rewrite orb_false_iff. split.
  - intros [= Hc Hs]. split; [by apply lower_char_fixed | by apply IH].
  - intros [Hc Hs]. f_equal; [by apply lower_char_fixed | by apply IH].
Qed.

Lemma upper_fixed s : upper s = s <-> has_lower s = false.
Proof.
  induction s as [|c s IH]; simpl; [done|]. rewrite orb_false_iff. split.
  - intros [= Hc Hs]. split; [by apply upper_char_fixed | by apply IH].
  - intros [Hc Hs]. f_equal; [by apply upper_char_fixed | by apply IH].
Qed.

End AsciiFacts.

(** ** Factory method *)

Section FactoryFacts.
Import Factory Text.




Example pdf_hello :
  process PDFHandler "Hello World!" = "PDF Content: Hello World!".
Proof. reflexivity. Qed.

Example text_hello : process TextHandler "Hello World!" = "hello world!".
Proof. reflexivity. Qed.

(** Two calls of one factory give two distinct objects. *)
Lemma create_handler_twice_distinct f w r1 w1 r2 w2 :
  create_handler f w = (Ok r1, w1) ->
  create_handler f w1 = (Ok r2, w2) ->
  r1 <> r2.
Proof.
  destruct f; cbn [create_handler]; unfold construct;
    intros [= <- <-] [= <- <-]; cbn [handlers];
    rewrite length_app; simpl; lia.
Qed.

End FactoryFacts.

(** ** Strategy *)

Section StrategyFacts.
Import Strategy Text.



Lemma results_app cs1 cs2 p :
  results (cs1 ++ cs2) p = results cs1 p ++ results cs2 (final cs1 p).
Proof.
  revert p. induction cs1 as [|[s|c] cs1 IH]; intros p; simpl; [done| |].
  - apply IH.
  - by rewrite IH.
Qed.

Lemma results_executes s contents :
  results (map Execute contents) {| _strategy := s |}
  = map (fun c => Ok (process s c)) contents.
Proof. induction contents as [|c cs IH]; simpl; [done|]. by rewrite IH. Qed.

(** C8. [execute(c)] returns what the active strategy's [process(c)]
    returns and leaves the processor as it is; after [set_strategy(s)]
    every following [execute] delegates to [s]; and whatever calls come
    later, strategy swaps included, the results of the calls made before
    them are the same. *)
Theorem text_processor_delegates
    (p : TextProcessor) (c : string) (s : ProcessingStrategy)
    (contents : list string) (before later : list call) :
  execute c p = (Ok (process (_strategy p) c), p) /\
  execute c (__init__ s) = (Ok (process s c), __init__ s) /\
  results (SetStrategy s :: map Execute contents) p
    = map (fun c' => Ok (process s c')) contents /\
  results (before ++ later) p
    = results before p ++ results later (final before p).
Proof.
  split; [done|]. split; [done|]. split.
  - cbn [results]. apply results_executes.
  - apply results_app.
Qed.

Example text_processor_driver :
  results [Execute "Hello World!"; SetStrategy UpperCaseStrategy;
           Execute "Hello World!"] (__init__ LowerCaseStrategy)
  = [Ok "hello world!"; Ok "HELLO WORLD!"].
Proof. reflexivity. Qed.

End StrategyFacts.

(** ** Decorator *)

Section DecoratorFacts.
Import Decorator.

(** [operation] always returns, and only ever appends to standard
    output. *)
Lemma operation_returns c out :
  exists r lines, operation c out = (Ok r, out ++ lines).
Proof.
  revert out. induction c as [content|c IH|c IH|c IH]; intros out; cbn [operation].
  - exists content, []. by rewrite app_nil_r.
  - apply IH.
  - destruct (IH out) as (r & lines & E).
    exists ("SpellChecked(" +:+ r +:+ ")"), lines.
    by rewrite (bind_ok _ _ _ _ _ E).
  - destruct (IH out) as (r & lines & E).
    exists r, (lines ++ ["Logging: " +:+ r]).
    rewrite (bind_ok _ _ _ _ _ E). unfold bind, modify, ret, print. simpl.
    by rewrite app_assoc.
Qed.

(** C9. A [ConcreteComponent] returns its content and prints nothing; a
    [SpellCheckDecorator] returns the wrapped result between
    "SpellChecked(" and ")" and prints nothing of its own; a
    [LoggingDecorator] returns the wrapped result as it is, after printing
    the line "Logging: " followed by that result; and the chain
    SpellCheck(Logging(Concrete "abc")) returns "SpellChecked(abc)" having
    printed the single line "Logging: abc". *)
Theorem decorator_chain_operation
    (content : string) (wrapped : Component) (out : list string) :
  operation (ConcreteComponent content) out = (Ok content, out) /\
  (exists r lines,
      operation wrapped out = (Ok r, out ++ lines) /\
      operation (SpellCheckDecorator wrapped) out
        = (Ok ("SpellChecked(" +:+ r +:+ ")"), out ++ lines) /\
      operation (LoggingDecorator wrapped) out
        = (Ok r, out ++ lines ++ ["Logging: " +:+ r])) /\
  operation (SpellCheckDecorator (LoggingDecorator (ConcreteComponent "abc"))) out
    = (Ok "SpellChecked(abc)", out ++ ["Logging: abc"]).
Proof.
  split; [done|]. split; [|done].
  destruct (operation_returns wrapped out) as (r & lines & E).
  exists r, lines. split; [done|]. cbn [operation].
  rewrite !(bind_ok _ _ _ _ _ E). unfold bind, modify, ret, print. simpl.
  split; [done|]. by rewrite app_assoc.
Qed.

Example decorator_driver :
  operation (SpellCheckDecorator (LoggingDecorator
               (ConcreteComponent "Text to be processed"))) []
  = (Ok "SpellChecked(Text to be processed)",
     ["Logging: Text to be processed"]).
Proof. reflexivity. Qed.

End DecoratorFacts.

(** ** Observer *)

Section ObserverFacts.
Import Observer.

Lemma remove_present x l :
  x ∈ l ->
  exists l1 l2, l = l1 ++ x :: l2 /\ (x ∉ l1) /\ remove x l = Some (l1 ++ l2).
Proof.
  induction l as [|y l IH]; [by intros ?%elem_of_nil|].
  intros Hin. cbn [remove]. destruct (decide (y = x)) as [->|Hne].
  - exists [], l. split; [done|]. split; [apply not_elem_of_nil|done].
  - apply elem_of_cons in Hin as [->|Hin]; [done|].
    destruct (IH Hin) as (l1 & l2 & -> & Hn & ->).
    exists (y :: l1), l2. split; [done|]. split; [|done].
    rewrite not_elem_of_cons. split; [congruence|done].
Qed.

Lemma remove_absent x l : x ∉ l -> remove x l = None.
Proof.
  induction l as [|y l IH]; [done|].
  rewrite not_elem_of_cons. intros [Hne Hn]. cbn [remove].
  destruct (decide (y = x)); [congruence|]. by rewrite IH.
Qed.

Lemma round_app l1 l2 c : round (l1 ++ l2) c = round l1 c ++ round l2 c.
Proof. apply map_app. Qed.

Lemma printed_app objs c l1 l2 :
  printed objs c (l1 ++ l2) = printed objs c l1 ++ printed objs c l2.
Proof. unfold printed. by rewrite map_app, concat_app. Qed.

(** One [update] call on an observer object. *)
Lemma update_call o cls w :
  objects w !! o = Some cls ->
  update o w =
    (snd (behaviour cls (_content (doc w))),
     {| objects := objects w; doc := doc w;
        stdout := stdout w ++ printed (objects w) (_content (doc w)) [o];
        updates := updates w ++ round [o] (_content (doc w)) |}).
Proof.
  intros E. unfold update, printed. simpl. rewrite E, app_nil_r.
  by destruct (behaviour cls (_content (doc w))).
Qed.

(** The loop when every observer returns: all of them are updated once,
    in list order. *)
Lemma notify_loop_complete os w :
  Forall (returns (objects w) (_content (doc w))) os ->
  notify_loop os w =
    (Ok tt,
     {| objects := objects w; doc := doc w;
        stdout := stdout w ++ printed (objects w) (_content (doc w)) os;
        updates := updates w ++ round os (_content (doc w)) |}).
Proof.
  revert w. induction os as [|o os IH]; intros w H.
  - cbn. rewrite !app_nil_r. by destruct w.
  - apply Forall_cons in H as [(cls & E & Hr) H]. cbn [notify_loop].
    pose proof (update_call o cls w E) as Hu. rewrite Hr in Hu.
    rewrite (bind_ok _ _ _ _ _ Hu), IH by done. cbn [objects doc stdout updates].
    change (o :: os) with ([o] ++ os).
    by rewrite printed_app, round_app, !app_assoc.
Qed.

(** The loop when the observer after the prefix [l1] raises: the prefix
    and the raising observer have been updated, nothing after it. *)
Lemma notify_loop_aborts l1 o l2 e w :
  Forall (returns (objects w) (_content (doc w))) l1 ->
  raises (objects w) (_content (doc w)) o e ->
  notify_loop (l1 ++ o :: l2) w =
    (Raise e,
     {| objects := objects w; doc := doc w;
        stdout := stdout w ++ printed (objects w) (_content (doc w)) (l1 ++ [o]);
        updates := updates w ++ round (l1 ++ [o]) (_content (doc w)) |}).
Proof.
  revert w. induction l1 as [|o1 l1 IH]; intros w H (cls & E & Hr).
  - cbn [app notify_loop].
    pose proof (update_call o cls w E) as Hu. rewrite Hr in Hu.
    by rewrite (bind_raise _ _ _ _ _ Hu).
  - apply Forall_cons in H as [(cls1 & E1 & Hr1) H].
    rewrite <- app_comm_cons. cbn [notify_loop].
    pose proof (update_call o1 cls1 w E1) as Hu. rewrite Hr1 in Hu.
    rewrite (bind_ok _ _ _ _ _ Hu).
    rewrite IH; cbn [objects doc stdout updates]; [|done|by exists cls].
    change ((o1 :: l1) ++ [o]) with ([o1] ++ (l1 ++ [o])).
    by rewrite (printed_app _ _ [o1]), (round_app [o1]), !app_assoc.
Qed.

Lemma set_content_complete c w :
  Forall (returns (objects w) c) (_observers (doc w)) ->
  set_content c w =
    (Ok tt,
     {| objects := objects w;
        doc := {| _content := c; _observers := _observers (doc w) |};
        stdout := stdout w ++ printed (objects w) c (_observers (doc w));
        updates := updates w ++ round (_observers (doc w)) c |}).
Proof.
  intros H. unfold set_content, bind, modify, notify.
  cbn [with_doc doc _observers]. by rewrite notify_loop_complete.
Qed.

(** C3. [attach(observer)] puts the observer at the end of the observer
    list, keeping what is there (duplicates included); when every attached
    observer's [update] returns, [set_content(text)] overwrites the content
    and, by the time it returns, has called [update] once per list entry,
    in list order, each call seeing the new content; so attaching one
    observer twice and setting the content once adds exactly two
    notifications for it, both with the new content. *)
Theorem attach_set_content_notifies
    (w : World) (observer : ref) (content : string) :
  Forall (returns (objects w) content) (_observers (doc w)) ->
  returns (objects w) content observer ->
  attach observer w =
    (Ok tt, with_doc {| _content := _content (doc w);
                        _observers := _observers (doc w) ++ [observer] |} w) /\
  (exists w',
      set_content content w = (Ok tt, w') /\
      _content (doc w') = content /\
      _observers (doc w') = _observers (doc w) /\
      updates w' = updates w ++ round (_observers (doc w)) content) /\
  (exists w',
      (attach observer ;;; attach observer ;;; set_content content)%py w
        = (Ok tt, w') /\
      _content (doc w') = content /\
      _observers (doc w') = _observers (doc w) ++ [observer; observer] /\
      updates w' = updates w ++ round (_observers (doc w)) content
                     ++ [(observer, content); (observer, content)]).
Proof.
  intros Hall Hobs. split; [done|]. split.
  - eexists. split; [by apply set_content_complete|]. by cbn.
  - eexists. split.
    + unfold bind, attach, modify. cbn [with_doc doc _content _observers].
      apply set_content_complete. cbn [objects doc _observers].
      rewrite <- app_assoc. apply Forall_app. split; [done|].
      by repeat constructor.
    + cbn [with_doc doc _content _observers updates objects].
      by rewrite <- !app_assoc, round_app.
Qed.

Lemma attach_set_content_notifies_witness :
  exists w',
    (attach 0 ;;; attach 0 ;;; set_content "Y")%py (fresh sample_objects)
      = (Ok tt, w') /\
    _content (doc w') = "Y" /\
    _observers (doc w') = [0; 0] /\
    updates w' = [(0, "Y"); (0, "Y")].
Proof.
  assert (Forall (returns sample_objects "Y") []) as H0 by constructor.
  assert (returns sample_objects "Y" 0) as H1
    by (exists Logger; split; reflexivity).
  exact (proj2 (proj2
           (attach_set_content_notifies (fresh sample_objects) 0 "Y" H0 H1))).
Defined.

(** The driver's observer scenario: one [Logger], one content change, one
    printed line. *)
Example observer_driver :
  (attach 0 ;;; set_content "New Document Content")%py (fresh sample_objects)
  = (Ok tt,
     {| objects := sample_objects;
        doc := {| _content := "New Document Content"; _observers := [0] |};
        stdout := ["Logger: Document content updated to: New Document Content"];
        updates := [(0, "New Document Content")] |}).
Proof. reflexivity. Qed.

(** C4. [detach(observer)] removes the first list entry equal to the
    observer and nothing else; when no entry is equal to it, [detach]
    raises [ValueError] and changes nothing. *)
Theorem detach_removes_first_or_raises (w : World) (observer : ref) :
  (observer ∈ _observers (doc w) ->
   exists l1 l2,
     _observers (doc w) = l1 ++ observer :: l2 /\
     (observer ∉ l1) /\
     detach observer w =
       (Ok tt, with_doc {| _content := _content (doc w);
                           _observers := l1 ++ l2 |} w)) /\
  (observer ∉ _observers (doc w) ->
   detach observer w = (Raise ValueError, w)).
Proof.
  split.
  - intros Hin. destruct (remove_present _ _ Hin) as (l1 & l2 & E & Hn & Hr).
    exists l1, l2. split; [done|]. split; [done|].
    unfold detach. by rewrite Hr.
  - intros Hn. unfold detach. by rewrite (remove_absent _ _ Hn).
Qed.

Lemma detach_removes_first_or_raises_witness :
  let w := snd ((attach 1 ;;; attach 0 ;;; attach 1)%py (fresh sample_objects)) in
  (exists l1 l2,
     [1; 0; 1] = l1 ++ 1 :: l2 /\
     (1 ∉ l1) /\
     detach 1 w =
       (Ok tt, with_doc {| _content := ""; _observers := l1 ++ l2 |} w)) /\
  detach 2 w = (Raise ValueError, w).
Proof.
  intros w.
  assert (1 ∈ _observers (doc w)) as Hin by (vm_compute; constructor).
  assert (2 ∉ [1; 0; 1]) as Hout
    by (rewrite !not_elem_of_cons; repeat split;
        [lia | lia | lia | apply not_elem_of_nil]).
  split.
  - exact (proj1 (detach_removes_first_or_raises w 1) Hin).
  - exact (proj2 (detach_removes_first_or_raises w 2) Hout).
Defined.

Example detach_first_only :
  fst ((attach 1 ;;; attach 0 ;;; attach 1 ;;; detach 1 ;;; get)%py
         (fresh sample_objects))
  = Ok {| objects := sample_objects;
          doc := {| _content := ""; _observers := [0; 1] |};
          stdout := []; updates := [] |}.
Proof. reflexivity. Qed.

(** C5. When an attached observer's [update] raises during
    [set_content], with every observer before it returning: the exception
    comes out of [set_content]; the observers before it and the raising one
    have been updated, in order, and none after it; and the content is the
    new one all the same. *)
Theorem set_content_observer_raises
    (w : World) (content : string) (l1 l2 : list ref) (o : ref) (e : exn) :
  _observers (doc w) = l1 ++ o :: l2 ->
  Forall (returns (objects w) content) l1 ->
  raises (objects w) content o e ->
  exists w',
    set_content content w = (Raise e, w') /\
    _content (doc w') = content /\
    _observers (doc w') = _observers (doc w) /\
    updates w' = updates w ++ round (l1 ++ [o]) content.
Proof.
  intros E Hall Hr. eexists. split.
  - unfold set_content, bind, modify, notify.
    cbn [with_doc doc _observers]. rewrite E.
    by apply notify_loop_aborts.
  - by cbn.
Qed.

Lemma set_content_observer_raises_witness :
  let w := snd ((attach 0 ;;; attach 2 ;;; attach 1)%py (fresh sample_objects)) in
  exists w',
    set_content "X" w = (Raise (RuntimeError "update failed"), w') /\
    _content (doc w') = "X" /\
    _observers (doc w') = [0; 2; 1] /\
    updates w' = [(0, "X"); (2, "X")].
Proof.
  intros w.
  assert (_observers (doc w) = [0] ++ 2 :: [1]) as E by reflexivity.
  assert (Forall (returns (objects w) "X") [0]) as Hall
    by (repeat constructor; exists Logger; split; reflexivity).
  assert (raises (objects w) "X" 2 (RuntimeError "update failed")) as Hr
    by (exists failing; split; reflexivity).
  exact (set_content_observer_raises w "X" [0] [1] 2 _ E Hall Hr).
Defined.

(** C10. [set_content] has no change detection: setting the same content
    twice in a row notifies every attached observer twice, one full round
    per call, the second call finding the content already equal to its
    argument. *)
Theorem set_content_same_content_notifies_again
    (w : World) (content : string) :
  Forall (returns (objects w) content) (_observers (doc w)) ->
  exists w1 w2,
    set_content content w = (Ok tt, w1) /\
    _content (doc w1) = content /\
    set_content content w1 = (Ok tt, w2) /\
    _content (doc w2) = content /\
    updates w1 = updates w ++ round (_observers (doc w)) content /\
    updates w2 = updates w1 ++ round (_observers (doc w)) content.
Proof.
  intros Hall. eexists _, _.
  split; [by apply set_content_complete|]. split; [done|].
  split; [by apply set_content_complete|]. by cbn.
Qed.

Lemma set_content_same_content_notifies_again_witness :
  let w := snd ((attach 0 ;;; attach 1)%py (fresh sample_objects)) in
  exists w1 w2,
    set_content "X" w = (Ok tt, w1) /\
    _content (doc w1) = "X" /\
    set_content "X" w1 = (Ok tt, w2) /\
    _content (doc w2) = "X" /\
    updates w1 = [(0, "X"); (1, "X")] /\
    updates w2 = updates w1 ++ [(0, "X"); (1, "X")].
Proof.
  intros w.
  assert (Forall (returns (objects w) "X") (_observers (doc w))) as Hall
    by (repeat constructor; exists Logger; split; reflexivity).
  exact (set_content_same_content_notifies_again w "X" Hall).
Defined.

End ObserverFacts.

(** * Further properties *)

(** ** The registry over whole histories *)

Section SingletonRunFacts.
Import Singleton SingletonRuns.

Lemma step_get_setting self k σ : (step (GetSetting self k) σ).2 = σ.
Proof.
  cbn [step]. pose proof (get_setting_state self k σ) as H.
  by destruct (get_setting self k σ).
Qed.

(** Once the instance exists no call allocates. *)
Lemma run_allocates_nothing cs σ r :
  _instance σ = Some r -> allocated (run cs σ).2 = allocated σ.
Proof.
  revert σ. induction cs as [|c cs IH]; intros σ E; [done|].
  rewrite run_cons. cbn [snd].
  rewrite (IH _ (step_keeps_instance c σ r E)).
  destruct c as [|self k v|self k].
  - cbn [step]. unfold __new__. by rewrite E.
  - cbn [step].
    by destruct (set_setting_cases self k v σ) as [[e ->]|(d & _ & _ & ->)].
  - by rewrite step_get_setting.
Qed.

Lemma run_before_first_construction cs σ :
  _instance σ = None ->
  allocated (run cs σ).2
    = allocated σ + (if existsb is_construct cs then 1 else 0) /\
  (_instance (run cs σ).2 =
     if existsb is_construct cs then Some (allocated σ) else None).
Proof.
  revert σ. induction cs as [|c cs IH]; intros σ E.
  - cbn. split; [lia|done].
  - rewrite run_cons. cbn [snd existsb].
    destruct c as [|self k v|self k]; cbn [step is_construct orb].
    + unfold __new__. rewrite E. cbn [snd].
      split.
      * erewrite run_allocates_nothing by reflexivity. cbn. lia.
      * by apply run_keeps_instance.
    + assert (set_setting self k v σ = (Raise AttributeError, σ)) as ->.
      { unfold set_setting. rewrite E. by rewrite decide_False. }
      by apply IH.
    + assert (get_setting self k σ = (Raise AttributeError, σ)) as ->.
      { unfold get_setting. rewrite E. by rewrite decide_False. }
      by apply IH.
Qed.

(** X1. However many times [Configuration()] is called, and whatever is
    called in between, exactly one object is allocated if there is any
    construction at all, none otherwise; the class holds an instance
    exactly when some construction happened. *)
Theorem configuration_allocates_once (cs : list call) :
  allocated (after cs) = (if existsb is_construct cs then 1 else 0) /\
  (is_Some (_instance (after cs)) <-> existsb is_construct cs = true) /\
  length (remove_dups (constructed (answers cs)))
    = (if existsb is_construct cs then 1 else 0).
Proof.
  unfold after, answers.
  destruct (run_before_first_construction cs initial eq_refl) as [Ha Hi].
  split; [exact Ha|]. split.
  - rewrite Hi. by destruct (existsb is_construct cs); split; intros H.
  - assert (forall r, r ∈ constructed (run cs initial).1 -> r = 0) as Hall.
    { intros r Hr. destruct (constructed_is_instance _ _ _ Hr) as [Hr' _].
      rewrite Hi in Hr'. destruct (existsb is_construct cs); [|done].
      by injection Hr' as <-. }
    assert (constructed (run cs initial).1 <> [] <-> existsb is_construct cs = true)
      as Hne.
    { clear. generalize initial. induction cs as [|c cs IH]; intros σ.
      - cbn. split; [done|discriminate].
      - rewrite run_cons. cbn [fst existsb].
        destruct c as [|self k v|self k]; cbn [step is_construct orb].
        + destruct (__new__ σ). cbn. split; [done|discriminate].
        + destruct (set_setting self k v σ). cbn [fst snd constructed]. apply IH.
        + destruct (get_setting self k σ). cbn [fst snd constructed]. apply IH. }
    destruct (existsb is_construct cs).
    + destruct (constructed (run cs initial).1) as [|r rs] eqn:E.
      { by destruct (proj2 Hne). }
      assert (remove_dups (r :: rs) = [0]) as ->; [|done].
      assert (Forall (fun x => x = 0) (r :: rs)) as HF.
      { apply Forall_forall. intros x Hx. by apply Hall. }
      clear -HF. revert r HF. induction rs as [|r' rs IH]; intros r HF.
      * apply Forall_cons in HF as [-> _]. reflexivity.
      * apply Forall_cons in HF as [-> HF]. cbn [remove_dups].
        destruct (decide_rel elem_of 0 (r' :: rs)) as [_|Hn]; [by apply IH|].
        apply Forall_cons in HF as [-> _]. destruct Hn. by left.
    + destruct (constructed (run cs initial).1) as [|r rs]; [done|].
      assert (false = true) by (by apply Hne). done.
Qed.

(** What the two methods do when called on the instance. *)
Lemma instance_state cs r :
  r ∈ constructed (answers cs) ->
  exists d, _instance (after cs) = Some r /\ _settings (after cs) = Some d.
Proof.
  unfold answers, after. intros Hr.
  destruct (constructed_is_instance _ _ _ Hr) as [Hi _].
  pose proof (run_consistent cs initial consistent_initial) as Hc.
  unfold consistent in Hc. rewrite Hi in Hc. destruct Hc as [[d Hd] _].
  by exists d.
Qed.

Lemma set_setting_on_instance σ r d k v :
  _instance σ = Some r -> _settings σ = Some d ->
  set_setting r k v σ =
    (Ok tt, {| _instance := Some r; _settings := Some (<[k := v]> d);
               allocated := allocated σ |}).
Proof.
  intros Hi Hd. unfold set_setting. by rewrite decide_True, Hd, Hi.
Qed.

Lemma get_setting_on_instance σ r d k :
  _instance σ = Some r -> _settings σ = Some d ->
  get_setting r k σ = (Ok (default PNone (d !! k)), σ).
Proof.
  intros Hi Hd. unfold get_setting. by rewrite decide_True, Hd.
Qed.

(** X2. Storing under one key leaves every other key as it was: after
    [set_setting(k, v)], [get_setting(k')] for [k' <> k] returns what it
    returned before. *)
Theorem set_setting_leaves_other_keys
    (cs : list call) (r : ref) (k k' : string) (v : pyval) :
  r ∈ constructed (answers cs) ->
  k <> k' ->
  exists σ',
    set_setting r k v (after cs) = (Ok tt, σ') /\
    fst (get_setting r k' σ') = fst (get_setting r k' (after cs)).
Proof.
  intros Hr Hne. destruct (instance_state cs r Hr) as (d & Hi & Hd).
  eexists. split; [by apply set_setting_on_instance|].
  erewrite !get_setting_on_instance by (done || reflexivity).
  cbn [fst]. by rewrite lookup_insert_ne.
Qed.

Lemma set_setting_leaves_other_keys_witness :
  let cs := [Construct; SetSetting 0 "theme" (PStr "dark")] in
  exists σ',
    set_setting 0 "language" (PStr "EN") (after cs) = (Ok tt, σ') /\
    fst (get_setting 0 "theme" σ') = fst (get_setting 0 "theme" (after cs)).
Proof.
  intros cs.
  assert (0 ∈ constructed (answers cs)) as H by (vm_compute; constructor).
  assert ("language" <> "theme") as Hne by discriminate.
  exact (set_setting_leaves_other_keys cs 0 "language" "theme" (PStr "EN") H Hne).
Defined.

(** X3. The last write under a key wins and leaves no trace of the
    earlier one: storing [v1] then [v2] under [k1] gives the same registry
    as storing [v2] alone; and two writes under different keys give the same
    registry in either order. *)
Theorem set_setting_overwrites_and_commutes
    (cs : list call) (r : ref) (k1 k2 : string) (v1 v2 : pyval) :
  r ∈ constructed (answers cs) ->
  k1 <> k2 ->
  (set_setting r k1 v1 ;;; set_setting r k1 v2)%py (after cs)
    = set_setting r k1 v2 (after cs) /\
  (set_setting r k1 v1 ;;; set_setting r k2 v2)%py (after cs)
    = (set_setting r k2 v2 ;;; set_setting r k1 v1)%py (after cs).
Proof.
  intros Hr Hne. destruct (instance_state cs r Hr) as (d & Hi & Hd).
  unfold bind.
  rewrite !(set_setting_on_instance (after cs) r d) by done.
  erewrite !set_setting_on_instance by reflexivity.
  cbn [allocated]. split.
  - by rewrite insert_insert_eq.
  - by rewrite (insert_insert_ne _ k2 k1) by done.
Qed.

Lemma set_setting_overwrites_and_commutes_witness :
  let cs := [Construct] in
  (set_setting 0 "language" (PStr "EN") ;;;
   set_setting 0 "language" (PStr "UA"))%py (after cs)
    = set_setting 0 "language" (PStr "UA") (after cs) /\
  (set_setting 0 "language" (PStr "EN") ;;;
   set_setting 0 "theme" (PStr "UA"))%py (after cs)
    = (set_setting 0 "theme" (PStr "UA") ;;;
       set_setting 0 "language" (PStr "EN"))%py (after cs).
Proof.
  intros cs.
  assert (0 ∈ constructed (answers cs)) as H by (vm_compute; constructor).
  assert ("language" <> "theme") as Hne by discriminate.
  exact (set_setting_overwrites_and_commutes
           cs 0 "language" "theme" (PStr "EN") (PStr "UA") H Hne).
Defined.

(** X4. [get_setting] only reads: taking every [get_setting] call out of
    a history changes neither the registry it ends in nor any answer of the
    other calls. *)
Theorem get_setting_calls_change_nothing (cs : list call) (σ : ClassState) :
  snd (run (without_gets cs) σ) = snd (run cs σ) /\
  fst (run (without_gets cs) σ) = without_values (fst (run cs σ)).
Proof.
  revert σ. induction cs as [|c cs IH]; intros σ; [done|].
  rewrite (run_cons c cs). cbn [fst snd].
  destruct c as [|self k v|self k].
  - change (without_gets (Construct :: cs)) with (Construct :: without_gets cs).
    rewrite run_cons. cbn [fst snd].
    destruct (IH (step Construct σ).2) as [-> ->]. split; [done|].
    cbn [step]. by destruct (__new__ σ).
  - change (without_gets (SetSetting self k v :: cs))
      with (SetSetting self k v :: without_gets cs).
    rewrite run_cons. cbn [fst snd].
    destruct (IH (step (SetSetting self k v) σ).2) as [-> ->]. split; [done|].
    cbn [step]. by destruct (set_setting self k v σ).
  - change (without_gets (GetSetting self k :: cs)) with (without_gets cs).
    rewrite step_get_setting. destruct (IH σ) as [-> ->]. split; [done|].
    cbn [step]. by destruct (get_setting self k σ).
Qed.

(** X5. A stored [None] cannot be told from a missing key: storing
    [None] under a key that no call stored under before does change the
    registry, yet [get_setting] returns the same [None] before and after. *)
Theorem get_setting_cannot_tell_stored_none
    (cs : list call) (r : ref) (k : string) :
  r ∈ constructed (answers cs) ->
  never_stores k cs ->
  exists σ',
    set_setting r k PNone (after cs) = (Ok tt, σ') /\
    σ' <> after cs /\
    fst (get_setting r k σ') = Ok PNone /\
    fst (get_setting r k (after cs)) = Ok PNone.
Proof.
  intros Hr Hn. destruct (instance_state cs r Hr) as (d & Hi & Hd).
  assert (d !! k = None) as Hk.
  { apply (run_absent k cs initial Hn); [discriminate|exact Hd]. }
  eexists. split; [by apply set_setting_on_instance|]. split.
  - intros E. apply (f_equal _settings) in E. rewrite Hd in E.
    cbn [_settings] in E. injection E as E.
    apply (f_equal (fun m => m !! k)) in E.
    by rewrite lookup_insert_eq, Hk in E.
  - erewrite !get_setting_on_instance by (done || reflexivity).
    cbn [fst]. by rewrite lookup_insert_eq, Hk.
Qed.

Lemma get_setting_cannot_tell_stored_none_witness :
  let cs := [Construct; SetSetting 0 "language" (PStr "EN")] in
  exists σ',
    set_setting 0 "theme" PNone (after cs) = (Ok tt, σ') /\
    σ' <> after cs /\
    fst (get_setting 0 "theme" σ') = Ok PNone /\
    fst (get_setting 0 "theme" (after cs)) = Ok PNone.
Proof.
  intros cs.
  assert (0 ∈ constructed (answers cs)) as H by (vm_compute; constructor).
  assert (never_stores "theme" cs) as Hn by (repeat constructor).
  exact (get_setting_cannot_tell_stored_none cs 0 "theme" H Hn).
Defined.

End SingletonRunFacts.

(** ** Handlers over many calls *)

Section FactoryRunFacts.
Import Factory FactoryRuns Text.

Lemma create_handler_product f w :
  create_handler f w =
    (Ok (length (handlers w)),
     {| handlers := handlers w ++ [product f]; stdout := stdout w |}).
Proof. by destruct f. Qed.

Lemma create_all_run fs w :
  create_all fs w =
    (Ok (seq (length (handlers w)) (length fs)),
     {| handlers := handlers w ++ map product fs; stdout := stdout w |}).
Proof.
  revert w. induction fs as [|f fs IH]; intros w.
  - cbn. rewrite app_nil_r. by destruct w.
  - cbn [create_all]. rewrite (bind_ok _ _ _ _ _ (create_handler_product f w)).
    rewrite (bind_ok _ _ _ _ _ (IH _)). cbn [handlers stdout ret].
    rewrite length_app, Nat.add_1_r, <- app_assoc. reflexivity.
Qed.

Lemma lookup_created fs (pre suf : list DocumentHandler) :
  Forall2 (fun r f => (pre ++ map product fs ++ suf) !! r = Some (product f))
          (seq (length pre) (length fs)) fs.
Proof.
  revert pre. induction fs as [|f fs IH]; intros pre; [constructor|].
  cbn [length seq map]. constructor.
  - by rewrite lookup_app_r, Nat.sub_diag.
  - specialize (IH (pre ++ [product f])).
    rewrite length_app, Nat.add_1_r, <- app_assoc in IH. exact IH.
Qed.

(** X6. Handlers made by any run of factory calls are all different
    objects that did not exist before; each is, and stays, of the class of
    the factory that made it, whatever is created after it; the handlers
    that existed before are untouched and nothing is printed. *)
Theorem create_all_builds_distinct_handlers
    (fs : list HandlerFactory) (w : World) :
  exists rs w',
    create_all fs w = (Ok rs, w') /\
    NoDup rs /\
    Forall (fun r => handlers w !! r = None) rs /\
    Forall2 (fun r f =>
               forall s, call_process r s w' = (Ok (process (product f) s), w'))
            rs fs /\
    handlers w' = handlers w ++ map product fs /\
    stdout w' = stdout w.
Proof.
  eexists _, _. split; [apply create_all_run|].
  split; [apply NoDup_seq|]. split.
  - apply Forall_forall. intros r Hr%elem_of_seq.
    apply lookup_ge_None. lia.
  - split; [|done].
    pose proof (lookup_created fs (handlers w) []) as H.
    rewrite app_nil_r in H.
    eapply Forall2_impl; [exact H|].
    intros r f E s. unfold call_process. cbn [handlers]. by rewrite E.
Qed.

(** X7. [PDFHandler.process] only puts its 13-character label in front:
    the output is 13 characters longer than the content, starts with the
    label, and the content is read back unchanged after it; processing
    twice stacks two labels. *)
Theorem pdf_handler_keeps_content (s : string) :
  String.length (process PDFHandler s) = 13 + String.length s /\
  substring 0 13 (process PDFHandler s) = "PDF Content: " /\
  substring 13 (String.length s) (process PDFHandler s) = s /\
  process PDFHandler (process PDFHandler s)
    = "PDF Content: PDF Content: " +:+ s.
Proof.
  split; [by cbn|]. split; [cbn; by destruct s|].
  split; [cbn; apply substring_all|done].
Qed.

(** X8. On ASCII text (where [lower] is [str.lower]) the output of
    [TextHandler.process] holds no upper-case letter, is ASCII text of the
    same length, and processing it again changes nothing. *)
Theorem text_handler_output_is_lower_case (s : string) :
  ascii_text s = true ->
  has_upper (process TextHandler s) = false /\
  ascii_text (process TextHandler s) = true /\
  String.length (process TextHandler s) = String.length s /\
  process TextHandler (process TextHandler s) = process TextHandler s.
Proof.
  intros Ha. cbn [process].
  split; [apply lower_no_upper|]. split; [by rewrite lower_ascii|].
  split; [apply lower_length | apply lower_idem].
Qed.

Lemma text_handler_output_is_lower_case_witness :
  has_upper (process TextHandler "Hello World!") = false /\
  ascii_text (process TextHandler "Hello World!") = true /\
  String.length (process TextHandler "Hello World!") = 12 /\
  process TextHandler (process TextHandler "Hello World!")
    = process TextHandler "Hello World!".
Proof.
  assert (ascii_text "Hello World!" = true) as H by reflexivity.
  exact (text_handler_output_is_lower_case "Hello World!" H).
Defined.

End FactoryRunFacts.

(** ** The processor over whole runs *)

Section StrategyRunFacts.
Import Strategy StrategyRuns Text.

Lemma final_strategy cs p : _strategy (final cs p) = last_set cs (_strategy p).
Proof.
  revert p. induction cs as [|[s|c] cs IH]; intros p; cbn; [done| |].
  - by rewrite IH.
  - by rewrite IH.
Qed.

Lemma results_length cs p : length (results cs p) = executes cs.
Proof.
  revert p. induction cs as [|[s|c] cs IH]; intros p; cbn; [done| |].
  - apply IH.
  - by rewrite IH.
Qed.

(** X9. An [execute] call uses the strategy of the latest
    [set_strategy] call made before it, however many [execute] calls lie in
    between, and the constructor's strategy when there was none; a run
    yields one result per [execute] call and ends with that latest
    strategy in place. *)
Theorem execute_uses_latest_strategy
    (before : list call) (c : string) (p : TextProcessor) :
  results (before ++ [Execute c]) p
    = results before p ++ [Ok (process (last_set before (_strategy p)) c)] /\
  length (results before p) = executes before /\
  _strategy (final before p) = last_set before (_strategy p).
Proof.
  split; [|split; [apply results_length | apply final_strategy]].
  rewrite results_app. cbn [results execute]. by rewrite final_strategy.
Qed.

(** X10. On ASCII text (where [lower] and [upper] are [str.lower] and
    [str.upper]): feeding the result of one strategy to the other gives what
    the second strategy alone gives on the original, so the first pass is
    lost; upper-casing and then lower-casing returns the original exactly
    when it held no upper-case letter, and the other way round exactly when
    it held no lower-case letter. *)
Theorem strategies_case_round_trip (s : string) :
  ascii_text s = true ->
  (r <- execute s ;; set_strategy UpperCaseStrategy ;;; execute r)%py
     (__init__ LowerCaseStrategy)
    = (Ok (process UpperCaseStrategy s), __init__ UpperCaseStrategy) /\
  (r <- execute s ;; set_strategy LowerCaseStrategy ;;; execute r)%py
     (__init__ UpperCaseStrategy)
    = (Ok (process LowerCaseStrategy s), __init__ LowerCaseStrategy) /\
  (process LowerCaseStrategy (process UpperCaseStrategy s) = s
     <-> has_upper s = false) /\
  (process UpperCaseStrategy (process LowerCaseStrategy s) = s
     <-> has_lower s = false).
Proof.
  intros _. unfold bind, execute, set_strategy, modify, __init__.
  cbn [_strategy process].
  split; [by rewrite upper_lower|]. split; [by rewrite lower_upper|].
  rewrite lower_upper, upper_lower.
  split; [apply lower_fixed | apply upper_fixed].
Qed.

Lemma strategies_case_round_trip_witness :
  (r <- execute "Hello" ;; set_strategy UpperCaseStrategy ;;; execute r)%py
     (__init__ LowerCaseStrategy)
    = (Ok "HELLO", __init__ UpperCaseStrategy) /\
  (r <- execute "Hello" ;; set_strategy LowerCaseStrategy ;;; execute r)%py
     (__init__ UpperCaseStrategy)
    = (Ok "hello", __init__ LowerCaseStrategy) /\
  (process LowerCaseStrategy (process UpperCaseStrategy "Hello") = "Hello"
     <-> has_upper "Hello" = false) /\
  (process UpperCaseStrategy (process LowerCaseStrategy "Hello") = "Hello"
     <-> has_lower "Hello" = false).
Proof.
  assert (ascii_text "Hello" = true) as H by reflexivity.
  exact (strategies_case_round_trip "Hello" H).
Defined.

End StrategyRunFacts.

(** ** The shape of a decorator chain *)

Section DecoratorShapeFacts.
Import Decorator DecoratorShape.

Lemma operation_spellcheck c out r out' :
  operation c out = (Ok r, out') ->
  operation (SpellCheckDecorator c) out
    = (Ok ("SpellChecked(" +:+ r +:+ ")"), out').
Proof. intros E. cbn [operation]. by rewrite (bind_ok _ _ _ _ _ E). Qed.

Lemma operation_logging c out r out' :
  operation c out = (Ok r, out') ->
  operation (LoggingDecorator c) out = (Ok r, out' ++ ["Logging: " +:+ r]).
Proof. intros E. cbn [operation]. by rewrite (bind_ok _ _ _ _ _ E). Qed.

(** What a chain returns and prints does not depend on what was printed
    before, and is fixed by the chain's shape. *)
Lemma operation_shape_uniform c :
  exists lines,
    (forall out,
        operation c out
        = (Ok (nest (spellchecks c) (payload c)), out ++ lines)) /\
    length lines = loggers c /\
    Forall (fun l => exists k, k <= spellchecks c /\
                               l = "Logging: " +:+ nest k (payload c)) lines.
Proof.
  induction c as [content|c IH|c IH|c IH].
  - exists []. split; [|by split]. intros out. cbn. by rewrite app_nil_r.
  - exact IH.
  - destruct IH as (lines & E & Hl & HF). exists lines.
    split; [|split; [done|]].
    + intros out. cbn [operation spellchecks payload nest].
      by rewrite (bind_ok _ _ _ _ _ (E out)).
    + eapply Forall_impl; [exact HF|].
      intros l (k & Hk & ->). exists k. cbn [spellchecks payload]. split; [lia|done].
  - destruct IH as (lines & E & Hl & HF).
    exists (lines ++ ["Logging: " +:+ nest (spellchecks c) (payload c)]).
    split; [|split].
    + intros out. cbn [operation spellchecks payload].
      rewrite (bind_ok _ _ _ _ _ (E out)). unfold bind, modify, ret, print.
      by rewrite app_assoc.
    + rewrite length_app, Hl. cbn. lia.
    + apply Forall_app. split; [exact HF|].
      repeat constructor. by exists (spellchecks c).
Qed.

(** X11. For every chain, however its decorators are stacked:
    [operation()] returns the bottom component's content inside one
    "SpellChecked(" ... ")" layer per [SpellCheckDecorator], prints one line
    per [LoggingDecorator] and no other, each such line being "Logging: "
    followed by the content inside some of those layers; plain [Decorator]
    wrappers add nothing. *)
Theorem operation_shape (c : Component) (out : list string) :
  exists lines,
    operation c out = (Ok (nest (spellchecks c) (payload c)), out ++ lines) /\
    length lines = loggers c /\
    Forall (fun l => exists k, k <= spellchecks c /\
                               l = "Logging: " +:+ nest k (payload c)) lines.
Proof.
  destruct (operation_shape_uniform c) as (lines & E & Hl & HF).
  exists lines. by split.
Qed.

(** X12. Wrapping order decides what is logged, not what is returned:
    spell-check over logging and logging over spell-check return the same
    text, but the first logs the inner result and the second logs the
    spell-checked one, and these two lines are never the same. *)
Theorem decorator_order_changes_log_only (c : Component) (out : list string) :
  exists r lines,
    operation c out = (Ok r, out ++ lines) /\
    operation (SpellCheckDecorator (LoggingDecorator c)) out
      = (Ok ("SpellChecked(" +:+ r +:+ ")"),
         out ++ lines ++ ["Logging: " +:+ r]) /\
    operation (LoggingDecorator (SpellCheckDecorator c)) out
      = (Ok ("SpellChecked(" +:+ r +:+ ")"),
         out ++ lines ++ ["Logging: " +:+ "SpellChecked(" +:+ r +:+ ")"]) /\
    "Logging: " +:+ r <> "Logging: " +:+ "SpellChecked(" +:+ r +:+ ")".
Proof.
  destruct (operation_shape_uniform c) as (lines & E & _ & _).
  eexists _, lines. split; [apply E|].
  split; [|split].
  - rewrite app_assoc. apply operation_spellcheck, operation_logging, E.
  - rewrite app_assoc. apply operation_logging, operation_spellcheck, E.
  - intros H. apply (f_equal String.length) in H.
    rewrite !string_length_app in H. cbn in H. lia.
Qed.

(** X13. A chain keeps no state between calls: calling [operation()]
    again returns the same text and prints the same lines once more, and
    what it returns and prints is the same whatever was printed before. *)
Theorem operation_is_repeatable (c : Component) (out out' : list string) :
  exists r lines,
    operation c out = (Ok r, out ++ lines) /\
    operation c out' = (Ok r, out' ++ lines) /\
    (operation c ;;; operation c)%py out = (Ok r, out ++ lines ++ lines).
Proof.
  destruct (operation_shape_uniform c) as (lines & E & _ & _).
  eexists _, lines. split; [apply E|]. split; [apply E|].
  rewrite (bind_ok _ _ _ _ _ (E out)), E. by rewrite app_assoc.
Qed.

End DecoratorShapeFacts.

(** ** The document under any observers *)

Section ObserverFrameFacts.
Import Observer.

Lemma remove_first_split x l1 l2 :
  x ∉ l1 -> remove x (l1 ++ x :: l2) = Some (l1 ++ l2).
Proof.
  induction l1 as [|y l1 IH]; intros Hn.
  - cbn. by rewrite decide_True.
  - apply not_elem_of_cons in Hn as [Hne Hn]. cbn.
    rewrite decide_False by congruence. by rewrite IH.
Qed.

Lemma world_eta w :
  {| objects := objects w; doc := doc w;
     stdout := stdout w ++ []; updates := updates w ++ [] |} = w.
Proof. rewrite !app_nil_r. by destruct w. Qed.

(** Whether the observers return or raise, the loop leaves the document
    and the observer objects as they are, appends to standard output, and
    has updated the first [n] entries of the list, in order, where [n] is
    the whole length if it returned. *)
Lemma notify_loop_frame os w :
  exists n lines,
    n <= length os /\
    snd (notify_loop os w) =
      {| objects := objects w; doc := doc w;
         stdout := stdout w ++ lines;
         updates := updates w ++ round (take n os) (_content (doc w)) |} /\
    (fst (notify_loop os w) = Ok tt -> n = length os).
Proof.
  revert w. induction os as [|o os IH]; intros w.
  - exists 0, []. cbn. by rewrite world_eta.
  - cbn [notify_loop]. destruct (objects w !! o) as [cls|] eqn:E.
    + pose proof (update_call o cls w E) as Hu.
      destruct (snd (behaviour cls (_content (doc w)))) as [[]|e].
      * rewrite (bind_ok _ _ _ _ _ Hu).
        match goal with |- context [notify_loop os ?w1] =>
          destruct (IH w1) as (n & lines & Hn & Hs & Hok) end.
        exists (S n), (printed (objects w) (_content (doc w)) [o] ++ lines).
        split; [cbn; lia|]. split.
        -- rewrite Hs. cbn [objects doc stdout updates take].
           change (o :: take n os) with ([o] ++ take n os).
           by rewrite round_app, !app_assoc.
        -- intros H. cbn. by rewrite Hok.
      * rewrite (bind_raise _ _ _ _ _ Hu).
        exists 1, (printed (objects w) (_content (doc w)) [o]).
        split; [cbn; lia|]. split; [|done].
        cbn [snd take]. by destruct os.
    + assert (update o w = (Raise AttributeError, w)) as Hu.
      { unfold update. by rewrite E. }
      rewrite (bind_raise _ _ _ _ _ Hu).
      exists 0, []. split; [lia|]. split; [|done].
      cbn. by rewrite world_eta.
Qed.

Lemma set_content_frame c w :
  exists n lines,
    n <= length (_observers (doc w)) /\
    snd (set_content c w) =
      {| objects := objects w;
         doc := {| _content := c; _observers := _observers (doc w) |};
         stdout := stdout w ++ lines;
         updates := updates w ++ round (take n (_observers (doc w))) c |} /\
    (fst (set_content c w) = Ok tt -> n = length (_observers (doc w))).
Proof.
  unfold set_content, bind, modify, notify. cbn [with_doc doc _observers].
  match goal with |- context [notify_loop ?os ?w1] =>
    destruct (notify_loop_frame os w1) as (n & lines & Hn & Hs & Hok) end.
  exists n, lines. by split.
Qed.

(** The loop when it reaches an attached object that is no observer. *)
Lemma notify_loop_missing l1 o l2 w :
  Forall (returns (objects w) (_content (doc w))) l1 ->
  objects w !! o = None ->
  notify_loop (l1 ++ o :: l2) w =
    (Raise AttributeError,
     {| objects := objects w; doc := doc w;
        stdout := stdout w ++ printed (objects w) (_content (doc w)) l1;
        updates := updates w ++ round l1 (_content (doc w)) |}).
Proof.
  revert w. induction l1 as [|o1 l1 IH]; intros w H E.
  - cbn [app notify_loop].
    assert (update o w = (Raise AttributeError, w)) as Hu.
    { unfold update. by rewrite E. }
    rewrite (bind_raise _ _ _ _ _ Hu). cbn. by rewrite world_eta.
  - apply Forall_cons in H as [(cls1 & E1 & Hr1) H].
    rewrite <- app_comm_cons. cbn [notify_loop].
    pose proof (update_call o1 cls1 w E1) as Hu. rewrite Hr1 in Hu.
    rewrite (bind_ok _ _ _ _ _ Hu).
    rewrite IH; cbn [objects doc stdout updates]; [|done|done].
    change (o1 :: l1) with ([o1] ++ l1).
    by rewrite printed_app, round_app, !app_assoc.
Qed.

(** X14. For attached observers that only read the subject, whether
    their [update] returns or raises: [set_content(text)] always leaves the
    document holding [text], so that [get_content()] afterwards returns
    [text], also when [set_content] itself ended in an exception; printed
    output is only ever appended to; and the observers updated are the
    first [n] entries of the observer list, in list order and each seeing
    [text], [n] being the whole list when [set_content] returns
    normally. *)
Theorem set_content_always_overwrites (w : World) (text : string) :
  exists n lines,
    n <= length (_observers (doc w)) /\
    _content (doc (snd (set_content text w))) = text /\
    get_content (snd (set_content text w))
      = (Ok text, snd (set_content text w)) /\
    stdout (snd (set_content text w)) = stdout w ++ lines /\
    updates (snd (set_content text w))
      = updates w ++ round (take n (_observers (doc w))) text /\
    (fst (set_content text w) = Ok tt -> n = length (_observers (doc w))).
Proof.
  destruct (set_content_frame text w) as (n & lines & Hn & Hs & Hok).
  exists n, lines. split; [done|]. unfold get_content. rewrite Hs.
  by repeat split.
Qed.

Lemma printed_loggers objs c os :
  Forall (fun o => objs !! o = Some Logger) os ->
  printed objs c os
    = replicate (length os) ("Logger: Document content updated to: " +:+ c).
Proof.
  induction os as [|o os IH]; intros H; [done|].
  apply Forall_cons in H as [E H]. change (o :: os) with ([o] ++ os).
  rewrite printed_app, IH by done. unfold printed. cbn. by rewrite E.
Qed.

(** X15. With only [Logger] observers attached, a content change prints
    one line per attached entry, each "Logger: Document content updated
    to: " followed by the new content, and returns normally. *)
Theorem loggers_print_one_line_each (w : World) (text : string) :
  Forall (fun o => objects w !! o = Some Logger) (_observers (doc w)) ->
  exists w',
    set_content text w = (Ok tt, w') /\
    stdout w' = stdout w ++
      replicate (length (_observers (doc w)))
                ("Logger: Document content updated to: " +:+ text).
Proof.
  intros H. eexists. split.
  - apply set_content_complete. eapply Forall_impl; [exact H|].
    intros o E. by exists Logger.
  - cbn [stdout]. by rewrite printed_loggers.
Qed.

Lemma loggers_print_one_line_each_witness :
  let w := snd ((attach 0 ;;; attach 1 ;;; attach 0)%py (fresh sample_objects)) in
  exists w',
    set_content "X" w = (Ok tt, w') /\
    stdout w' = ["Logger: Document content updated to: X";
                 "Logger: Document content updated to: X";
                 "Logger: Document content updated to: X"].
Proof.
  intros w.
  assert (Forall (fun o => objects w !! o = Some Logger) (_observers (doc w)))
    as H by (repeat constructor).
  exact (loggers_print_one_line_each w "X" H).
Defined.

Lemma snoc_is_cons (x : nat) (l : list nat) :
  l ++ [x] = x :: l <-> Forall (eq x) l.
Proof.
  induction l as [|y l IH]; [by split|]. cbn. split.
  - intros [= -> E]. constructor; [done | by apply IH].
  - intros [-> H]%Forall_cons. f_equal. by apply IH.
Qed.

(** X16. [attach(o)] followed by [detach(o)] returns normally.  When
    [o] was not attached it restores the document.  When [o] was attached
    it removes [o]'s first, older entry and leaves the new one at the end;
    that restores the document exactly when every entry after [o]'s first
    one is [o] itself. *)
Theorem attach_then_detach (w : World) (o : ref) (l1 l2 : list ref) :
  (o ∉ _observers (doc w) ->
   (attach o ;;; detach o)%py w = (Ok tt, w)) /\
  (_observers (doc w) = l1 ++ o :: l2 ->
   o ∉ l1 ->
   (attach o ;;; detach o)%py w =
     (Ok tt, with_doc {| _content := _content (doc w);
                         _observers := l1 ++ l2 ++ [o] |} w) /\
   ((attach o ;;; detach o)%py w = (Ok tt, w) <-> Forall (eq o) l2)).
Proof.
  split.
  - intros Hn. unfold bind, attach, modify, detach.
    cbn [with_doc doc _observers _content objects stdout updates].
    rewrite (remove_first_split o _ [] Hn), app_nil_r.
    by destruct w as [? [] ? ?].
  - intros E Hn.
    assert ((attach o ;;; detach o)%py w =
            (Ok tt, with_doc {| _content := _content (doc w);
                                _observers := l1 ++ l2 ++ [o] |} w)) as Hrun.
    { unfold bind, attach, modify, detach.
      cbn [with_doc doc _observers _content objects stdout updates].
      rewrite E, <- app_assoc, <- app_comm_cons.
      by rewrite (remove_first_split o l1 _ Hn). }
    split; [exact Hrun|]. rewrite Hrun. split.
    + intros [= Hw]. apply (f_equal (fun w' => _observers (doc w'))) in Hw.
      cbn [with_doc doc _observers] in Hw. rewrite E in Hw.
      apply app_inv_head in Hw. by apply snoc_is_cons.
    + intros HF. apply snoc_is_cons in HF. f_equal.
      destruct w as [objs [c obs] out ups]. cbn in *. subst obs.
      by rewrite HF.
Qed.

Lemma attach_then_detach_witness :
  let w0 := fresh sample_objects in
  let w := snd ((attach 0 ;;; attach 1)%py w0) in
  let w' := snd ((attach 1 ;;; attach 0)%py w0) in
  (attach 2 ;;; detach 2)%py w = (Ok tt, w) /\
  (attach 0 ;;; detach 0)%py w =
    (Ok tt, with_doc {| _content := ""; _observers := [1; 0] |} w) /\
  (attach 0 ;;; detach 0)%py w' = (Ok tt, w').
Proof.
  intros w0 w w'.
  assert (2 ∉ [0; 1]) as Hn
    by (rewrite !not_elem_of_cons; repeat split;
        [lia | lia | apply not_elem_of_nil]).
  assert (0 ∉ [1]) as Hn'
    by (rewrite !not_elem_of_cons; split; [lia | apply not_elem_of_nil]).
  assert (_observers (doc w) = [] ++ 0 :: [1]) as E by reflexivity.
  assert (_observers (doc w') = [1] ++ 0 :: []) as E' by reflexivity.
  split; [|split].
  - exact (proj1 (attach_then_detach w 2 [] []) Hn).
  - exact (proj1 (proj2 (attach_then_detach w 0 [] [1]) E (not_elem_of_nil 0))).
  - exact (proj2 (proj2 (proj2 (attach_then_detach w' 0 [1] []) E' Hn'))
             (Forall_nil_2 (eq 0))).
Defined.

(** X17. An observer attached once and then detached gets no further
    notification: with remaining observers that only read the subject,
    whether their [update] returns or raises, the next [set_content]
    updates nobody but entries of the remaining list. *)
Theorem detached_observer_is_not_notified
    (w : World) (o : ref) (l1 l2 : list ref) (text : string) :
  _observers (doc w) = l1 ++ o :: l2 ->
  o ∉ l1 ->
  o ∉ l2 ->
  exists w1 new,
    detach o w = (Ok tt, w1) /\
    _observers (doc w1) = l1 ++ l2 /\
    updates (snd (set_content text w1)) = updates w ++ new /\
    Forall (fun u => fst u <> o) new.
Proof.
  intros E H1 H2.
  set (w1 := with_doc {| _content := _content (doc w);
                         _observers := l1 ++ l2 |} w).
  destruct (set_content_frame text w1) as (n & lines & Hn & Hs & _).
  exists w1, (round (take n (l1 ++ l2)) text). split.
  { unfold detach. by rewrite E, (remove_first_split o l1 l2 H1). }
  split; [done|]. split; [by rewrite Hs|].
  apply Forall_forall. intros [x c] Hx. cbn.
  unfold round in Hx. apply list_elem_of_fmap in Hx as (y & [= -> ->] & Hy).
  apply subseteq_take in Hy. apply elem_of_app in Hy as [Hy|Hy]; congruence.
Qed.

Lemma detached_observer_is_not_notified_witness :
  let w := snd ((attach 0 ;;; attach 2 ;;; attach 1)%py (fresh sample_objects)) in
  exists w1 new,
    detach 2 w = (Ok tt, w1) /\
    _observers (doc w1) = [0; 1] /\
    updates (snd (set_content "X" w1)) = updates w ++ new /\
    Forall (fun u => fst u <> 2) new.
Proof.
  intros w.
  assert (_observers (doc w) = [0] ++ 2 :: [1]) as E by reflexivity.
  assert (2 ∉ [0]) as H1
    by (rewrite !not_elem_of_cons; split; [lia | apply not_elem_of_nil]).
  assert (2 ∉ [1]) as H2
    by (rewrite !not_elem_of_cons; split; [lia | apply not_elem_of_nil]).
  exact (detached_observer_is_not_notified w 2 [0] [1] "X" E H1 H2).
Defined.

(** X18. [attach] does not check what it is given: attaching an object
    that has no [update] method succeeds, and the failure comes at the next
    [set_content], as an [AttributeError], after the content has been
    overwritten and the observers attached earlier have been updated. *)
Theorem attach_does_not_validate (w : World) (o : ref) (text : string) :
  objects w !! o = None ->
  Forall (returns (objects w) text) (_observers (doc w)) ->
  exists w1 w2,
    attach o w = (Ok tt, w1) /\
    set_content text w1 = (Raise AttributeError, w2) /\
    _content (doc w2) = text /\
    updates w2 = updates w ++ round (_observers (doc w)) text.
Proof.
  intros E H. eexists _, _. split; [reflexivity|]. split.
  - unfold set_content, bind, modify, notify.
    cbn [with_doc doc _observers _content].
    by apply notify_loop_missing.
  - by cbn.
Qed.

Lemma attach_does_not_validate_witness :
  let w := snd (attach 0 (fresh sample_objects)) in
  exists w1 w2,
    attach 7 w = (Ok tt, w1) /\
    set_content "X" w1 = (Raise AttributeError, w2) /\
    _content (doc w2) = "X" /\
    updates w2 = [(0, "X")].
Proof.
  intros w.
  assert (objects w !! 7 = None) as E by reflexivity.
  assert (Forall (returns (objects w) "X") (_observers (doc w))) as H
    by (repeat constructor; exists Logger; split; reflexivity).
  exact (attach_does_not_validate w 7 "X" E H).
Defined.

End ObserverFrameFacts.
